(** * Hit-or-Miss transform for tumor detection: a shallow embedding of
    [apply_hit_or_miss] (src/main.py) and of the OpenCV primitives it calls.

    Images are [uint8] matrices: a [grid] is a list of rows, each a list of
    samples in [Z].  Row index first ([y]), column index second ([x]), as
    numpy and OpenCV index them. *)

From Stdlib Require Import String Ascii ZArith List Lia Bool.
Import ListNotations.
Open Scope bool_scope.
Open Scope Z_scope.

Definition grid := list (list Z).

(** Row lengths of a grid; two grids have the same width and height
    exactly when their [dims] agree. *)
Definition dims (g : grid) : list nat := map (@length Z) g.

(** A rectangular [h] x [w] grid, as every numpy array is. *)
Definition shape (h w : nat) (g : grid) : Prop := dims g = repeat w h.

(** The sample [g[y, x]], if the cell exists. *)
Definition cell (g : grid) (y x : nat) : option Z :=
  match nth_error g y with
  | Some row => nth_error row x
  | None => None
  end.

(** [g[y, x]], with 0 outside the array (used only to state properties). *)
Definition at_ (g : grid) (y x : nat) : Z :=
  match cell g y x with Some v => v | None => 0 end.

(** Pairs each element with its index, counting from [n]. *)
Fixpoint indexed_from {A} (n : nat) (l : list A) : list (nat * A) :=
  match l with
  | [] => []
  | a :: t => (n, a) :: indexed_from (S n) t
  end.

Definition indexed {A} (l : list A) : list (nat * A) := indexed_from 0 l.

Fixpoint zip_with {A B C} (f : A -> B -> C) (l1 : list A) (l2 : list B) : list C :=
  match l1, l2 with
  | a :: t1, b :: t2 => f a b :: zip_with f t1 t2
  | _, _ => []
  end.

(** ** [cv2.threshold(src, thresh, maxval, cv2.THRESH_BINARY)]
    OpenCV: [dst(x,y) = maxval if src(x,y) > thresh else 0]; for 8-bit
    images the threshold is [floor thresh]. *)
Definition threshold_binary (thresh maxval : Z) (src : grid) : grid :=
  map (map (fun v => if thresh <? v then maxval else 0)) src.

(** ** [cv2.bitwise_not] and [cv2.bitwise_and] on 8-bit images. *)
Definition bitwise_not (src : grid) : grid :=
  map (map (fun v => Z.land (Z.lnot v) 255)) src.

Definition bitwise_and (a b : grid) : grid :=
  zip_with (zip_with Z.land) a b.

(** ** [cv2.getStructuringElement(cv2.MORPH_ELLIPSE, (w, h))]
    OpenCV computes, for row [i] with [dy = i - r] and [|dy| <= r],
    [dx = cvRound(c * sqrt((r*r - dy*dy) / (r*r)))] with [r = h/2],
    [c = w/2], and sets the cells [max(c-dx,0) <= j < min(c+dx+1,w)] to 1.
    The rounding is computed here exactly:
    [round(c * sqrt(n) / r) = floor((sqrt(4 c^2 n) + r) / (2 r))], and
    [floor] of [sqrt] may be taken first because [r] is an integer. *)
Definition ellipse_dx (c r dy : Z) : Z :=
  if r =? 0 then 0
  else (Z.sqrt (4 * c * c * (r * r - dy * dy)) + r) / (2 * r).

Definition ellipse_row (w h i : Z) : list Z :=
  let r := h / 2 in
  let c := w / 2 in
  let dy := i - r in
  let '(j1, j2) :=
    if Z.abs dy <=? r then
      let dx := ellipse_dx c r dy in (Z.max (c - dx) 0, Z.min (c + dx + 1) w)
    else (0, 0) in
  map (fun j => if (j1 <=? Z.of_nat j) && (Z.of_nat j <? j2) then 1 else 0)
      (seq 0 (Z.to_nat w)).

Definition getStructuringElement_ellipse (w h : Z) : grid :=
  map (fun i => ellipse_row w h (Z.of_nat i)) (seq 0 (Z.to_nat h)).

(** ** numpy slice assignment [k[r0:r1, c0:c1] = v] (bounds clipped to the
    array, as numpy clips slices). *)
Definition slice_assign (r0 r1 c0 c1 : nat) (v : Z) (k : grid) : grid :=
  map (fun '(i, row) =>
         map (fun '(j, e) =>
                if (r0 <=? i)%nat && (i <? r1)%nat && (c0 <=? j)%nat && (j <? c1)%nat
                then v else e)
             (indexed row))
      (indexed k).

(** ** [cv2.erode(src, kernel, iterations=1)]
    The kernel's nonzero cells are collected first (OpenCV's
    [preprocess2DKernel]); the anchor is the default [(-1,-1)], i.e. the
    kernel centre [(w/2, h/2)]; the border is [BORDER_CONSTANT] with
    [morphologyDefaultBorderValue()], which for erosion is the largest
    value of the type, 255: samples outside the image never lower the
    minimum. *)
Definition kernel_coords (k : grid) : list (nat * nat) :=
  flat_map (fun '(i, row) =>
              flat_map (fun '(j, e) => if e =? 0 then [] else [(i, j)])
                       (indexed row))
           (indexed k).

Definition pix (src : grid) (y x : Z) : Z :=
  if (y <? 0) || (x <? 0) then 255
  else match nth_error src (Z.to_nat y) with
       | Some row => match nth_error row (Z.to_nat x) with
                     | Some v => v
                     | None => 255
                     end
       | None => 255
       end.

Definition erode_at (src : grid) (coords : list (nat * nat)) (ay ax y x : Z) : Z :=
  fold_left (fun acc '(i, j) =>
               Z.min acc (pix src (y + Z.of_nat i - ay) (x + Z.of_nat j - ax)))
            coords 255.

Definition erode (src k : grid) : grid :=
  let coords := kernel_coords k in
  let ay := Z.of_nat (length k) / 2 in
  let ax := Z.of_nat (length (hd [] k)) / 2 in
  map (fun '(y, row) =>
         map (fun '(x, _) => erode_at src coords ay ax (Z.of_nat y) (Z.of_nat x))
             (indexed row))
      (indexed src).

(** ** The computation of [apply_hit_or_miss], lines 21-47. *)
Definition hit_kernel : grid := getStructuringElement_ellipse 20 20.

(** [miss_kernel = getStructuringElement(MORPH_ELLIPSE, (40, 40))] followed
    by [miss_kernel[10:30, 10:30] = 0]. *)
Definition carve_out (k : grid) : grid := slice_assign 10 30 10 30 0 k.

Definition miss_kernel : grid := carve_out (getStructuringElement_ellipse 40 40).

Record hom_stages := {
  binary_image : grid;
  erosion_hit : grid;
  complement_image : grid;
  erosion_miss : grid;
  hit_or_miss_result : grid
}.

Definition hit_or_miss (image_gray : grid) : hom_stages :=
  let binary := threshold_binary 150 255 image_gray in
  let eh := erode binary hit_kernel in
  let comp := bitwise_not binary in
  let em := erode comp miss_kernel in
  {| binary_image := binary;
     erosion_hit := eh;
     complement_image := comp;
     erosion_miss := em;
     hit_or_miss_result := bitwise_and eh em |}.

(** ** The effects of [apply_hit_or_miss]: console output, the figure, the
    file written, and the [cv2.error] exceptions of [cv2.imread] and
    [cv2.imwrite], which the function does not catch.  What [cv2.imread]
    reads, the encoders of the OpenCV build and the file system are the
    environment. *)
Definition newline : string := String (ascii_of_nat 10) EmptyString.
Definition slash : ascii := "/"%char.

Fixpoint has_slash (s : string) : bool :=
  match s with
  | EmptyString => false
  | String c rest => Ascii.eqb c slash || has_slash rest
  end.

(** [os.path.basename]: the part after the last ['/']. *)
Fixpoint basename (s : string) : string :=
  match s with
  | EmptyString => EmptyString
  | String c rest =>
      if has_slash rest then basename rest
      else if Ascii.eqb c slash then rest else s
  end.

Fixpoint ends_with_slash (s : string) : bool :=
  match s with
  | EmptyString => false
  | String c EmptyString => Ascii.eqb c slash
  | String _ rest => ends_with_slash rest
  end.

Definition starts_with_slash (s : string) : bool :=
  match s with
  | String c _ => Ascii.eqb c slash
  | EmptyString => false
  end.

(** [os.path.join(a, b)] (posixpath). *)
Definition path_join (a b : string) : string :=
  if starts_with_slash b then b
  else if (a =? EmptyString)%string || ends_with_slash a then (a ++ b)%string
  else (a ++ String slash b)%string.

(** [cv2.imread(p, IMREAD_GRAYSCALE)]: a decoded image; [None] (no file, no
    decoder recognises the content, or the header or the data cannot be
    read); or a raised [cv2.error]: OpenCV checks the size the header
    announces (at most 2^30 pixels) with an assertion outside the [try] that
    guards the header, so a file announcing more raises. *)
Inductive read_result :=
  | Decoded (g : grid)
  | NotDecoded
  | ReadError (msg : string).

Definition is_decoded (r : read_result) : bool :=
  match r with Decoded _ => true | _ => false end.

Record env := {
  imread_gray : string -> read_result;
  encoder_exts : list string;   (** file extensions of the build's image encoders *)
  can_write : string -> bool    (** the encoder can open the file for writing *)
}.

Inductive io_event :=
  | Print (s : string)
  | ShowFigure (titles : list string) (panels : list grid) (suptitle : string)
  | Imwrite (path : string) (ok : bool).

(** Files on disk: path and contents. *)
Definition files := list (string * grid).

(** [isalnum] in the C locale. *)
Definition is_alnum (c : ascii) : bool :=
  let n := nat_of_ascii c in
  (Nat.leb 48 n && Nat.leb n 57) || (Nat.leb 65 n && Nat.leb n 90)
  || (Nat.leb 97 n && Nat.leb n 122).

(** [tolower] in the C locale. *)
Definition to_lower (c : ascii) : ascii :=
  let n := nat_of_ascii c in
  if Nat.leb 65 n && Nat.leb n 90 then ascii_of_nat (n + 32) else c.

Fixpoint lower (s : string) : string :=
  match s with
  | EmptyString => EmptyString
  | String c rest => String (to_lower c) (lower rest)
  end.

(** At most [n] letters and digits that start [s]. *)
Fixpoint alnum_prefix (n : nat) (s : string) : string :=
  match n, s with
  | S n', String c rest => if is_alnum c then String c (alnum_prefix n' rest) else EmptyString
  | _, _ => EmptyString
  end.

Definition dot : ascii := "."%char.

(** [strrchr(filename, '.') + 1]: the text after the last ['.'] of the
    whole file name. *)
Fixpoint after_last_dot (s : string) : option string :=
  match s with
  | EmptyString => None
  | String c rest =>
      match after_last_dot rest with
      | Some t => Some t
      | None => if Ascii.eqb c dot then Some rest else None
      end
  end.

(** [findEncoder(filename)] finds an encoder: the (at most 128) letters and
    digits after the last ['.'] are one of the encoders' extensions,
    compared case-insensitively. *)
Definition find_encoder (exts : list string) (filename : string) : bool :=
  if Nat.leb (String.length filename) 1 then false else
  match after_last_dot filename with
  | None => false
  | Some t =>
      let ext := lower (alnum_prefix 128 t) in
      existsb (fun x => String.eqb ext (lower x)) exts
  end.

Inductive write_result :=
  | Written (ok : bool) (fs : files)
  | WriteError (msg : string).

(** [cv2.imwrite(path, img)]: raises [cv2.error] when no encoder matches
    the file name, before any file is opened; otherwise the encoder writes
    the file and [True] is returned, or it cannot open the file (e.g. its
    directory is missing) and [False] is returned without raising. *)
Definition imwrite (e : env) (fs : files) (path : string) (img : grid) : write_result :=
  if negb (find_encoder (encoder_exts e) path) then
    WriteError "could not find a writer for the specified extension"
  else if can_write e path then Written true ((path, img) :: fs)
  else Written false fs.

(** How a call ends: it returns, or a [cv2.error] propagates out of it. *)
Inductive exit := Returned | Raised (msg : string).

(** The output of a call, the files on disk after it, and how it ended. *)
Record run := { trace : list io_event; disk : files; outcome : exit }.

Definition apply_hit_or_miss (e : env) (fs : files) (image_path output_dir : string) : run :=
  let ev0 := Print ("Processing image: " ++ image_path) in
  match imread_gray e image_path with
  | ReadError msg => {| trace := [ev0]; disk := fs; outcome := Raised msg |}
  | NotDecoded =>
      {| trace := [ev0; Print ("Error: Could not load image at " ++ image_path)];
         disk := fs; outcome := Returned |}
  | Decoded image_gray =>
      let st := hit_or_miss image_gray in
      let base_filename := basename image_path in
      let fig := ShowFigure ["Original"; "Structured element"; "Image after Erosion"]
                            [image_gray; binary_image st; erosion_miss st]
                            ("Hit-or-Miss Transform for: " ++ base_filename) in
      let output_path := path_join output_dir ("result_" ++ base_filename) in
      match imwrite e fs output_path (hit_or_miss_result st) with
      | WriteError msg => {| trace := [ev0; fig]; disk := fs; outcome := Raised msg |}
      | Written ok fs' =>
          {| trace := [ev0; fig; Imwrite output_path ok;
                       Print ("Result saved to: " ++ output_path ++ newline)];
             disk := fs'; outcome := Returned |}
      end
  end%string.

(** ** The Python objects of [apply_hit_or_miss] as a store.
    Each cv2 call returns a fresh array object; the slice assignment of
    line 32 updates an existing object in place.  Objects are numbered by
    their position in the heap. *)
Inductive expr :=
  | EImage                                  (** the loaded [image_gray] *)
  | EThreshold (x : string)
  | EEllipse (w h : Z)
  | EErode (x k : string)
  | ENot (x : string)
  | EAnd (x y : string).

Inductive stmt :=
  | SAssign (x : string) (e : expr)
  | SSliceAssign (x : string) (r0 r1 c0 c1 : nat) (v : Z).

Record store := { heap : list grid; vars : list (string * nat) }.

Inductive obj_event :=
  | Created (x : string) (id : nat) (g : grid)
  | Mutated (x : string) (id : nat).

Fixpoint lookup_var (vs : list (string * nat)) (x : string) : option nat :=
  match vs with
  | [] => None
  | (y, id) :: t => if (x =? y)%string then Some id else lookup_var t x
  end.

Definition get (s : store) (x : string) : option grid :=
  match lookup_var (vars s) x with
  | Some id => nth_error (heap s) id
  | None => None
  end.

Fixpoint set_nth {A} (n : nat) (a : A) (l : list A) : list A :=
  match l, n with
  | [], _ => []
  | _ :: t, O => a :: t
  | b :: t, S n' => b :: set_nth n' a t
  end.

Definition eval_expr (image_gray : grid) (s : store) (e : expr) : option grid :=
  match e with
  | EImage => Some image_gray
  | EThreshold x => option_map (threshold_binary 150 255) (get s x)
  | EEllipse w h => Some (getStructuringElement_ellipse w h)
  | EErode x k =>
      match get s x, get s k with Some a, Some b => Some (erode a b) | _, _ => None end
  | ENot x => option_map bitwise_not (get s x)
  | EAnd x y =>
      match get s x, get s y with
      | Some a, Some b => Some (bitwise_and a b)
      | _, _ => None
      end
  end.

Definition exec_stmt (image_gray : grid) (s : store) (c : stmt)
  : option (store * obj_event) :=
  match c with
  | SAssign x e =>
      match eval_expr image_gray s e with
      | Some g =>
          let id := length (heap s) in
          Some ({| heap := heap s ++ [g]; vars := (x, id) :: vars s |}, Created x id g)
      | None => None
      end
  | SSliceAssign x r0 r1 c0 c1 v =>
      match lookup_var (vars s) x with
      | Some id =>
          match nth_error (heap s) id with
          | Some g =>
              Some ({| heap := set_nth id (slice_assign r0 r1 c0 c1 v g) (heap s);
                       vars := vars s |}, Mutated x id)
          | None => None
          end
      | None => None
      end
  end.

Fixpoint exec (image_gray : grid) (s : store) (p : list stmt)
  : option (store * list obj_event) :=
  match p with
  | [] => Some (s, [])
  | c :: rest =>
      match exec_stmt image_gray s c with
      | Some (s', ev) =>
          match exec image_gray s' rest with
          | Some (s'', evs) => Some (s'', ev :: evs)
          | None => None
          end
      | None => None
      end
  end.

(** Lines 12-47 of [apply_hit_or_miss] after a successful load. *)
Definition hit_or_miss_body : list stmt :=
  [ SAssign "image_gray" EImage;
    SAssign "binary_image" (EThreshold "image_gray");
    SAssign "hit_kernel" (EEllipse 20 20);
    SAssign "miss_kernel" (EEllipse 40 40);
    SSliceAssign "miss_kernel" 10 30 10 30 0;
    SAssign "erosion_hit" (EErode "binary_image" "hit_kernel");
    SAssign "complement_image" (ENot "binary_image");
    SAssign "erosion_miss" (EErode "complement_image" "miss_kernel");
    SAssign "hit_or_miss_result" (EAnd "erosion_hit" "erosion_miss") ].

Definition empty_store : store := {| heap := []; vars := [] |}.

Definition run_body (image_gray : grid) : option (store * list obj_event) :=
  exec image_gray empty_store hit_or_miss_body.

(** Every object keeps the value it was created with. *)
Definition no_mutation (r : option (store * list obj_event)) : Prop :=
  match r with
  | Some (s, evs) =>
      forall x id g, In (Created x id g) evs -> nth_error (heap s) id = Some g
  | None => True
  end.

(** ** Auxiliary definitions for the statements and proofs *)

(** The sample the kernel cell [p] reads for output cell [(y, x)]. *)
Definition kernel_term (src : grid) (ay ax y x : Z) (p : nat * nat) : Z :=
  let '(i, j) := p in pix src (y + Z.of_nat i - ay) (x + Z.of_nat j - ax).

Definition bin (v : Z) : Prop := v = 0 \/ v = 255.

Definition all_bin (g : grid) : Prop := forall y x v, cell g y x = Some v -> bin v.

Definition pair_eqb (p q : nat * nat) : bool :=
  Nat.eqb (fst p) (fst q) && Nat.eqb (snd p) (snd q).

(** The all-255 and all-0 50 x 50 rasters. *)
Definition white50 : grid := repeat (repeat 255 50) 50.

Definition black50 : grid := repeat (repeat 0 50) 50.

Definition is_mutation (ev : obj_event) : bool :=
  match ev with Mutated _ _ => true | Created _ _ _ => false end.

(** Extensions of the encoders every OpenCV build has. *)
Definition common_encoder_exts : list string :=
  ["bmp"; "dib"; "jpeg"; "jpg"; "jpe"; "png"; "pbm"; "pgm"; "ppm"; "pxm"; "pnm";
   "sr"; "ras"]%string.

(** An environment where [cv2.imread] returns [None] for every path. *)
Definition env_missing_image : env :=
  {| imread_gray := fun _ => NotDecoded; encoder_exts := common_encoder_exts;
     can_write := fun _ => true |}.

(** An environment where every file announces a 65000 x 65000 image in its
    header, so [cv2.imread] raises. *)
Definition env_oversized_header : env :=
  {| imread_gray := fun _ =>
       ReadError "Assertion failed: pixels <= CV_IO_MAX_IMAGE_PIXELS";
     encoder_exts := common_encoder_exts; can_write := fun _ => true |}.

(** An environment where every image reads as [[0]] (whatever the file
    name, as [cv2.imread] recognises the format by content) and no output
    file can be opened (the output directory is missing). *)
Definition env_no_output_dir : env :=
  {| imread_gray := fun _ => Decoded [[0]]; encoder_exts := common_encoder_exts;
     can_write := fun _ => false |}.


(** [g[a, b]] at integer coordinates, [None] outside the array. *)
Definition cellZ (g : grid) (a b : Z) : option Z :=
  if (a <? 0) || (b <? 0) then None else cell g (Z.to_nat a) (Z.to_nat b).

Example hit_kernel_row0 : nth 0 hit_kernel [] =
  [0;0;0;0;0;0;0;0;0;0;1;0;0;0;0;0;0;0;0;0].
Proof. reflexivity. Qed.

Example one_white_pixel :
  hit_or_miss_result (hit_or_miss [[255]]) = [[255]].
Proof. vm_compute. reflexivity. Qed.

Example basename_ex : basename "data/Tr-me_0019.jpg" = "Tr-me_0019.jpg"%string.
Proof. reflexivity. Qed.

Example join_ex : path_join "results" "result_x.jpg" = "results/result_x.jpg"%string.
Proof. reflexivity. Qed.

Example find_encoder_ex :
  find_encoder common_encoder_exts "results/result_SCAN.Jpg" = true /\
  find_encoder common_encoder_exts "nodir/result_scan" = false.
Proof. split; reflexivity. Qed.

(** * General facts about the embedding *)

Section Indexing.
Context {A B : Type}.

Lemma nth_error_indexed_from (n : nat) (l : list A) (k : nat) :
  nth_error (indexed_from n l) k = option_map (fun a => ((n + k)%nat, a)) (nth_error l k).
Proof.
  revert n k; induction l as [|a t IH]; intros n k; destruct k; simpl; auto.
  - now rewrite Nat.add_0_r.
  - rewrite IH. now replace (S n + k)%nat with (n + S k)%nat by lia.
Qed.

Lemma length_indexed_from (n : nat) (l : list A) : length (indexed_from n l) = length l.
Proof. revert n; induction l; simpl; auto. Qed.

Lemma map_indexed_ext (f : nat * A -> B) (g : A -> B) (l : list A) :
  (forall k a, nth_error l k = Some a -> f (k, a) = g a) ->
  map f (indexed l) = map g l.
Proof.
  unfold indexed.
  assert (Hgen : forall n, (forall k a, nth_error l k = Some a -> f ((n + k)%nat, a) = g a) ->
                 map f (indexed_from n l) = map g l).
  { induction l as [|a t IH]; intros n H; simpl; auto.
    f_equal.
    - specialize (H 0%nat a eq_refl). now rewrite Nat.add_0_r in H.
    - apply IH. intros k b Hk. specialize (H (S k) b Hk).
      now replace (n + S k)%nat with (S n + k)%nat in H by lia. }
  intros H; apply Hgen; exact H.
Qed.

Lemma nth_error_map_indexed (f : nat * A -> B) (l : list A) (k : nat) :
  nth_error (map f (indexed l)) k = option_map (fun a => f (k, a)) (nth_error l k).
Proof.
  rewrite nth_error_map. unfold indexed. rewrite nth_error_indexed_from.
  now destruct (nth_error l k).
Qed.

Lemma length_map_indexed (f : nat * A -> B) (l : list A) :
  length (map f (indexed l)) = length l.
Proof. now rewrite length_map; unfold indexed; rewrite length_indexed_from. Qed.

End Indexing.

(** The minimum fold of [erode_at]. *)
Section FoldMin.
Context {A : Type} (f : A -> Z).

Lemma fold_min_le_init (l : list A) (a : Z) :
  fold_left (fun acc p => Z.min acc (f p)) l a <= a.
Proof.
  revert a; induction l as [|p t IH]; intros a; simpl; [lia|].
  specialize (IH (Z.min a (f p))); lia.
Qed.

Lemma fold_min_le (l : list A) (a : Z) (p : A) :
  In p l -> fold_left (fun acc q => Z.min acc (f q)) l a <= f p.
Proof.
  revert a; induction l as [|q t IH]; intros a Hin; simpl in *; [contradiction|].
  destruct Hin as [->|Hin]; [|now apply IH].
  pose proof (fold_min_le_init t (Z.min a (f p))); lia.
Qed.

Lemma fold_min_inv (P : Z -> Prop) (l : list A) (a : Z) :
  (forall u v, P u -> P v -> P (Z.min u v)) ->
  P a -> (forall p, In p l -> P (f p)) ->
  P (fold_left (fun acc q => Z.min acc (f q)) l a).
Proof.
  intros Hmin; revert a; induction l as [|q t IH]; intros a Ha Hl; simpl; auto.
  apply IH; [apply Hmin; auto; apply Hl; now left|].
  intros p Hp; apply Hl; now right.
Qed.

End FoldMin.

Lemma erode_at_fold (src : grid) coords ay ax y x :
  erode_at src coords ay ax y x =
  fold_left (fun acc q => Z.min acc (kernel_term src ay ax y x q)) coords 255.
Proof.
  unfold erode_at. generalize 255.
  induction coords as [|[i j] t IH]; intros a; simpl; auto.
Qed.

(** ** Cells and dimensions of the primitives' results *)

Lemma cell_map_map (f : Z -> Z) (g : grid) y x :
  cell (map (map f) g) y x = option_map f (cell g y x).
Proof.
  unfold cell. rewrite nth_error_map.
  destruct (nth_error g y) as [row|]; simpl; auto.
  now rewrite nth_error_map.
Qed.

Lemma dims_map_map (f : Z -> Z) (g : grid) : dims (map (map f) g) = dims g.
Proof.
  unfold dims. rewrite map_map. apply map_ext. intros; apply length_map.
Qed.

Lemma nth_error_zip_with {A B C} (f : A -> B -> C) l1 l2 k :
  nth_error (zip_with f l1 l2) k =
  match nth_error l1 k, nth_error l2 k with
  | Some a, Some b => Some (f a b)
  | _, _ => None
  end.
Proof.
  revert l2 k; induction l1 as [|a t IH]; intros [|b t2] [|k]; simpl; auto.
  now destruct (nth_error t k).
Qed.

Lemma cell_bitwise_and (a b : grid) y x :
  cell (bitwise_and a b) y x =
  match cell a y x, cell b y x with
  | Some u, Some v => Some (Z.land u v)
  | _, _ => None
  end.
Proof.
  unfold cell, bitwise_and. rewrite nth_error_zip_with.
  destruct (nth_error a y) as [ra|], (nth_error b y) as [rb|]; auto.
  - apply nth_error_zip_with.
  - now destruct (nth_error ra x).
Qed.

Lemma at_bitwise_and (a b : grid) y x :
  at_ (bitwise_and a b) y x = Z.land (at_ a y x) (at_ b y x).
Proof.
  unfold at_. rewrite cell_bitwise_and.
  destruct (cell a y x), (cell b y x); simpl; auto using Z.land_0_r.
Qed.

Lemma dims_bitwise_and (a b : grid) : dims a = dims b -> dims (bitwise_and a b) = dims a.
Proof.
  unfold dims, bitwise_and. revert b.
  induction a as [|ra ta IH]; intros [|rb tb] H; simpl in *; try discriminate; auto.
  injection H as Hr Ht. f_equal; [|now apply IH].
  clear - Hr. revert rb Hr.
  induction ra as [|u t IH]; intros [|v t'] H; simpl in *; try discriminate; auto.
Qed.

Lemma cell_erode (src k : grid) y x :
  cell (erode src k) y x =
  option_map (fun _ => erode_at src (kernel_coords k) (Z.of_nat (length k) / 2)
                         (Z.of_nat (length (hd [] k)) / 2) (Z.of_nat y) (Z.of_nat x))
             (cell src y x).
Proof.
  unfold cell, erode. rewrite nth_error_map_indexed.
  destruct (nth_error src y) as [row|]; simpl; auto.
  now rewrite nth_error_map_indexed.
Qed.

Lemma dims_erode (src k : grid) : dims (erode src k) = dims src.
Proof.
  unfold dims, erode. rewrite map_map.
  apply map_indexed_ext. intros y row _. apply length_map_indexed.
Qed.

(** ** Binary images: every sample is 0 or 255 *)
Lemma bin_min u v : bin u -> bin v -> bin (Z.min u v).
Proof. unfold bin; intros [->| ->] [->| ->]; simpl; auto. Qed.

Lemma threshold_all_bin (g : grid) : all_bin (threshold_binary 150 255 g).
Proof.
  intros y x v. unfold threshold_binary. rewrite cell_map_map.
  destruct (cell g y x) as [w|]; simpl; [|discriminate].
  intros H; injection H as <-. destruct (150 <? w); red; auto.
Qed.

Lemma not_all_bin (g : grid) : all_bin g -> all_bin (bitwise_not g).
Proof.
  intros Hg y x v. unfold bitwise_not. rewrite cell_map_map.
  destruct (cell g y x) as [w|] eqn:E; simpl; [|discriminate].
  intros H; injection H as <-. destruct (Hg _ _ _ E) as [-> | ->]; red; auto.
Qed.

Lemma pix_bin (src : grid) a b : all_bin src -> bin (pix src a b).
Proof.
  intros Hs. unfold pix.
  destruct ((a <? 0) || (b <? 0)); [red; auto|].
  destruct (nth_error src (Z.to_nat a)) as [row|] eqn:Er; [|red; auto].
  destruct (nth_error row (Z.to_nat b)) as [v|] eqn:Ev; [|red; auto].
  apply (Hs (Z.to_nat a) (Z.to_nat b)). unfold cell. now rewrite Er.
Qed.

Lemma erode_all_bin (src k : grid) : all_bin src -> all_bin (erode src k).
Proof.
  intros Hs y x v. rewrite cell_erode.
  destruct (cell src y x); simpl; [|discriminate].
  intros H; injection H as <-. rewrite erode_at_fold.
  apply fold_min_inv; [exact bin_min|red; auto|].
  intros [i j] _. apply pix_bin, Hs.
Qed.

Lemma at_bin (g : grid) y x : all_bin g -> bin (at_ g y x).
Proof.
  intros Hg. unfold at_. destruct (cell g y x) eqn:E; [now apply (Hg y x)|red; auto].
Qed.

Lemma bitwise_and_diag (g : grid) : bitwise_and g g = g.
Proof.
  unfold bitwise_and. induction g as [|row t IH]; simpl; auto.
  rewrite IH. f_equal.
  induction row as [|v r IHr]; simpl; auto. now rewrite Z.land_diag, IHr.
Qed.

Lemma pix_in_bounds (src : grid) y x v :
  cell src y x = Some v -> pix src (Z.of_nat y) (Z.of_nat x) = v.
Proof.
  unfold cell, pix. intros H.
  replace ((Z.of_nat y <? 0) || (Z.of_nat x <? 0)) with false
    by (symmetry; apply orb_false_iff; split; apply Z.ltb_ge; lia).
  rewrite !Nat2Z.id. destruct (nth_error src y); [now rewrite H|discriminate].
Qed.

Lemma in_of_existsb (p : nat * nat) (l : list (nat * nat)) :
  existsb (pair_eqb p) l = true -> In p l.
Proof.
  intros H. apply existsb_exists in H as [q [Hq Heq]].
  destruct p as [a b], q as [c d]. unfold pair_eqb in Heq; simpl in Heq.
  apply andb_true_iff in Heq as [H1 H2].
  apply Nat.eqb_eq in H1, H2. subst. exact Hq.
Qed.

(** The stages of [hit_or_miss], named. *)
Lemma binary_image_eq g : binary_image (hit_or_miss g) = threshold_binary 150 255 g.
Proof. reflexivity. Qed.

Lemma complement_image_eq g :
  complement_image (hit_or_miss g) = bitwise_not (threshold_binary 150 255 g).
Proof. reflexivity. Qed.

Lemma erosion_hit_eq g :
  erosion_hit (hit_or_miss g) = erode (threshold_binary 150 255 g) hit_kernel.
Proof. reflexivity. Qed.

Lemma erosion_miss_eq g :
  erosion_miss (hit_or_miss g) = erode (bitwise_not (threshold_binary 150 255 g)) miss_kernel.
Proof. reflexivity. Qed.

Lemma hit_or_miss_result_eq g :
  hit_or_miss_result (hit_or_miss g) =
  bitwise_and (erosion_hit (hit_or_miss g)) (erosion_miss (hit_or_miss g)).
Proof. reflexivity. Qed.

Lemma erosion_hit_all_bin g : all_bin (erosion_hit (hit_or_miss g)).
Proof. rewrite erosion_hit_eq. apply erode_all_bin, threshold_all_bin. Qed.

Lemma erosion_miss_all_bin g : all_bin (erosion_miss (hit_or_miss g)).
Proof. rewrite erosion_miss_eq. apply erode_all_bin, not_all_bin, threshold_all_bin. Qed.

Lemma hit_kernel_size :
  Z.of_nat (length hit_kernel) / 2 = 10 /\ Z.of_nat (length (hd [] hit_kernel)) / 2 = 10.
Proof. split; reflexivity. Qed.

Lemma hit_kernel_anchor : In (10%nat, 10%nat) (kernel_coords hit_kernel).
Proof. apply in_of_existsb. reflexivity. Qed.

Lemma miss_kernel_size :
  Z.of_nat (length miss_kernel) / 2 = 20 /\ Z.of_nat (length (hd [] miss_kernel)) / 2 = 20.
Proof. split; reflexivity. Qed.

(** * The claims *)

(** ** C1: binarization.
    The claim says a sample maps to 255 exactly when it is [>= 150].
    [cv2.threshold] with [THRESH_BINARY] compares strictly: a sample equal to
    150 maps to 0. *)
Lemma C1_counterexample :
  ~ (forall image_gray y x v, cell image_gray y x = Some v ->
       (at_ (binary_image (hit_or_miss image_gray)) y x = 255 <-> 150 <= v)).
Proof.
  intros H. specialize (H [[150]] 0%nat 0%nat 150 eq_refl).
  destruct H as [_ H]. pose proof (H (Z.le_refl 150)) as H'.
  rewrite binary_image_eq in H'. vm_compute in H'. discriminate.
Qed.

(** C1 (amended): for every raster and every cell holding sample [v], the
    binarized mask holds 255 if [v > 150] and 0 otherwise, i.e. it is 255
    iff [v > 150] and 0 iff [v <= 150]. *)
Theorem C1_threshold_strict (image_gray : grid) (y x : nat) (v : Z)
  (Hv : cell image_gray y x = Some v) :
  cell (binary_image (hit_or_miss image_gray)) y x = Some (if 150 <? v then 255 else 0) /\
  (at_ (binary_image (hit_or_miss image_gray)) y x = 255 <-> 150 < v) /\
  (at_ (binary_image (hit_or_miss image_gray)) y x = 0 <-> v <= 150).
Proof.
  assert (Hc : cell (binary_image (hit_or_miss image_gray)) y x =
               Some (if 150 <? v then 255 else 0)).
  { rewrite binary_image_eq. unfold threshold_binary.
    now rewrite cell_map_map, Hv. }
  split; [exact Hc|]. unfold at_. rewrite Hc.
  destruct (150 <? v) eqn:E; [apply Z.ltb_lt in E|apply Z.ltb_ge in E];
    split; split; intros; try lia; try discriminate; reflexivity.
Qed.

Lemma C1_threshold_strict_witness :
  cell [[151]] 0 0 = Some 151 /\
  cell (binary_image (hit_or_miss [[151]])) 0 0 = Some (if 150 <? 151 then 255 else 0) /\
  (at_ (binary_image (hit_or_miss [[151]])) 0 0 = 255 <-> 150 < 151) /\
  (at_ (binary_image (hit_or_miss [[151]])) 0 0 = 0 <-> 151 <= 150).
Proof. split; [reflexivity|]. apply (C1_threshold_strict [[151]] 0 0 151). reflexivity. Defined.

(** ** C2: the detection mask is foreground (nonzero) at a cell iff both
    erosion results are foreground there, and AND-ing the detection mask
    with itself gives it back (AND is idempotent). *)
Theorem C2_detection_is_and (image_gray : grid) (y x : nat) :
  (at_ (hit_or_miss_result (hit_or_miss image_gray)) y x <> 0 <->
   at_ (erosion_hit (hit_or_miss image_gray)) y x <> 0 /\
   at_ (erosion_miss (hit_or_miss image_gray)) y x <> 0) /\
  bitwise_and (hit_or_miss_result (hit_or_miss image_gray))
              (hit_or_miss_result (hit_or_miss image_gray)) =
  hit_or_miss_result (hit_or_miss image_gray).
Proof.
  split; [|apply bitwise_and_diag].
  rewrite hit_or_miss_result_eq, at_bitwise_and.
  destruct (at_bin _ y x (erosion_hit_all_bin image_gray)) as [-> | ->];
  destruct (at_bin _ y x (erosion_miss_all_bin image_gray)) as [-> | ->];
  simpl; split; intros H; try tauto; try discriminate; lia.
Qed.

(** ** C6: complementing the binarized mask twice gives it back. *)
Theorem C6_complement_involutive (image_gray : grid) :
  bitwise_not (bitwise_not (binary_image (hit_or_miss image_gray))) =
  binary_image (hit_or_miss image_gray).
Proof.
  rewrite binary_image_eq. unfold bitwise_not, threshold_binary.
  rewrite !map_map. apply map_ext. intros row.
  rewrite !map_map. apply map_ext. intros v.
  destruct (150 <? v); reflexivity.
Qed.

(** ** C7: every grid of the pipeline has the row lengths of the source
    raster (hence its width and height); the structuring elements are
    20 x 20 and 40 x 40. *)
Theorem C7_same_dims (image_gray : grid) :
  let st := hit_or_miss image_gray in
  dims (binary_image st) = dims image_gray /\
  dims (complement_image st) = dims image_gray /\
  dims (erosion_hit st) = dims image_gray /\
  dims (erosion_miss st) = dims image_gray /\
  dims (hit_or_miss_result st) = dims image_gray /\
  shape 20 20 hit_kernel /\ shape 40 40 miss_kernel.
Proof.
  intros st. unfold st.
  assert (Hb : dims (binary_image (hit_or_miss image_gray)) = dims image_gray)
    by apply dims_map_map.
  assert (Hc : dims (complement_image (hit_or_miss image_gray)) = dims image_gray)
    by (rewrite complement_image_eq; unfold bitwise_not;
        rewrite dims_map_map; apply dims_map_map).
  assert (Hh : dims (erosion_hit (hit_or_miss image_gray)) = dims image_gray)
    by (rewrite erosion_hit_eq, dims_erode; apply Hb).
  assert (Hm : dims (erosion_miss (hit_or_miss image_gray)) = dims image_gray)
    by (rewrite erosion_miss_eq, dims_erode; apply Hc).
  repeat split; try assumption.
  - rewrite hit_or_miss_result_eq, dims_bitwise_and; [apply Hh|].
    now rewrite Hh, Hm.
Qed.

(** ** C9: wherever the detection mask is foreground, the binarized mask is
    foreground: the hit element covers its own anchor (10, 10). *)
Theorem C9_detection_within_binary (image_gray : grid) (y x : nat)
  (Hd : at_ (hit_or_miss_result (hit_or_miss image_gray)) y x <> 0) :
  at_ (binary_image (hit_or_miss image_gray)) y x <> 0.
Proof.
  rewrite hit_or_miss_result_eq, at_bitwise_and in Hd.
  assert (Hh : at_ (erosion_hit (hit_or_miss image_gray)) y x <> 0)
    by (intros E; rewrite E in Hd; apply Hd; reflexivity).
  clear Hd. revert Hh.
  rewrite erosion_hit_eq, binary_image_eq. unfold at_. rewrite cell_erode.
  destruct (cell (threshold_binary 150 255 image_gray) y x) as [b|] eqn:Eb;
    cbn [option_map]; [|tauto].
  destruct hit_kernel_size as [-> ->]. rewrite erode_at_fold.
  intros Hne Hb0. apply Hne. subst b.
  pose proof (fold_min_le (kernel_term (threshold_binary 150 255 image_gray) 10 10
                 (Z.of_nat y) (Z.of_nat x)) _ 255 _ hit_kernel_anchor) as Hle.
  assert (Hanchor : kernel_term (threshold_binary 150 255 image_gray) 10 10
                      (Z.of_nat y) (Z.of_nat x) (10%nat, 10%nat) = 0).
  { unfold kernel_term. simpl Z.of_nat.
    replace (Z.of_nat y + 10 - 10) with (Z.of_nat y) by lia.
    replace (Z.of_nat x + 10 - 10) with (Z.of_nat x) by lia.
    now apply pix_in_bounds. }
  rewrite Hanchor in Hle.
  assert (Hbin : bin (fold_left (fun acc q => Z.min acc
            (kernel_term (threshold_binary 150 255 image_gray) 10 10
               (Z.of_nat y) (Z.of_nat x) q)) (kernel_coords hit_kernel) 255)).
  { apply fold_min_inv; [exact bin_min|red; auto|].
    intros [i j] _. apply pix_bin, threshold_all_bin. }
  destruct Hbin as [H0|H0]; lia.
Qed.

Lemma C9_detection_within_binary_witness :
  at_ (hit_or_miss_result (hit_or_miss [[255]])) 0 0 <> 0 /\
  at_ (binary_image (hit_or_miss [[255]])) 0 0 <> 0.
Proof.
  assert (H : at_ (hit_or_miss_result (hit_or_miss [[255]])) 0 0 <> 0)
    by (vm_compute; discriminate).
  split; [exact H|]. exact (C9_detection_within_binary [[255]] 0 0 H).
Defined.

(** ** C4: the carve-out of the miss element *)

Lemma cell_slice_assign r0 r1 c0 c1 v (k : grid) i j :
  cell (slice_assign r0 r1 c0 c1 v k) i j =
  option_map (fun e => if (r0 <=? i)%nat && (i <? r1)%nat && (c0 <=? j)%nat && (j <? c1)%nat
                       then v else e) (cell k i j).
Proof.
  unfold cell, slice_assign. rewrite nth_error_map_indexed.
  destruct (nth_error k i) as [row|]; simpl; auto.
  now rewrite nth_error_map_indexed.
Qed.

Lemma dims_slice_assign r0 r1 c0 c1 v (k : grid) :
  dims (slice_assign r0 r1 c0 c1 v k) = dims k.
Proof.
  unfold dims, slice_assign. rewrite map_map.
  apply map_indexed_ext. intros i row _. apply length_map_indexed.
Qed.

Lemma shape_cell h w (g : grid) i j :
  shape h w g -> (i < h)%nat -> (j < w)%nat -> exists v, cell g i j = Some v.
Proof.
  unfold shape, dims, cell. intros Hs Hi Hj.
  assert (Hd : nth_error (map (@length Z) g) i = Some w)
    by (rewrite Hs; now apply nth_error_repeat).
  rewrite nth_error_map in Hd.
  destruct (nth_error g i) as [row|]; simpl in Hd; [|discriminate].
  injection Hd as Hl.
  destruct (nth_error row j) as [v|] eqn:E; [now exists v|].
  apply nth_error_None in E. lia.
Qed.

(** C4: the miss element is the 40 x 40 ellipse with the block
    [10:30, 10:30] set to 0 afterwards.  Whatever 40 x 40 grid the carve-out
    is applied to, it keeps the size, every cell of rows 10..29 x columns
    10..29 becomes 0, and every other cell is unchanged. *)
Theorem C4_miss_kernel_carve_out (base : grid) (Hb : shape 40 40 base) :
  miss_kernel = carve_out (getStructuringElement_ellipse 40 40) /\
  shape 40 40 (getStructuringElement_ellipse 40 40) /\
  shape 40 40 (carve_out base) /\
  (forall i j, (10 <= i < 30)%nat -> (10 <= j < 30)%nat ->
     cell (carve_out base) i j = Some 0) /\
  (forall i j, ~ ((10 <= i < 30)%nat /\ (10 <= j < 30)%nat) ->
     cell (carve_out base) i j = cell base i j).
Proof.
  split; [reflexivity|]. split; [reflexivity|].
  split; [unfold shape, carve_out; now rewrite dims_slice_assign|].
  split.
  - intros i j Hi Hj. unfold carve_out. rewrite cell_slice_assign.
    destruct (shape_cell 40 40 base i j Hb ltac:(lia) ltac:(lia)) as [v ->].
    cbn [option_map]. replace ((10 <=? i)%nat && (i <? 30)%nat && (10 <=? j)%nat && (j <? 30)%nat)
      with true; [reflexivity|].
    symmetry. repeat rewrite andb_true_iff.
    rewrite !Nat.leb_le, !Nat.ltb_lt. lia.
  - intros i j Hout. unfold carve_out. rewrite cell_slice_assign.
    destruct (cell base i j); cbn [option_map]; auto.
    replace ((10 <=? i)%nat && (i <? 30)%nat && (10 <=? j)%nat && (j <? 30)%nat)
      with false; [reflexivity|].
    symmetry. apply not_true_iff_false. repeat rewrite andb_true_iff.
    rewrite !Nat.leb_le, !Nat.ltb_lt. lia.
Qed.

Lemma C4_miss_kernel_carve_out_witness :
  shape 40 40 (getStructuringElement_ellipse 40 40) /\
  (miss_kernel = carve_out (getStructuringElement_ellipse 40 40) /\
   shape 40 40 (getStructuringElement_ellipse 40 40) /\
   shape 40 40 (carve_out (getStructuringElement_ellipse 40 40)) /\
   (forall i j, (10 <= i < 30)%nat -> (10 <= j < 30)%nat ->
      cell (carve_out (getStructuringElement_ellipse 40 40)) i j = Some 0) /\
   (forall i j, ~ ((10 <= i < 30)%nat /\ (10 <= j < 30)%nat) ->
      cell (carve_out (getStructuringElement_ellipse 40 40)) i j =
      cell (getStructuringElement_ellipse 40 40) i j)).
Proof.
  assert (H : shape 40 40 (getStructuringElement_ellipse 40 40)) by reflexivity.
  split; [exact H|]. exact (C4_miss_kernel_carve_out _ H).
Defined.

(** ** C5: the all-white 50 x 50 raster *)
Lemma nth_error_repeat_inv {A} (a b : A) n k :
  nth_error (repeat a n) k = Some b -> (k < n)%nat /\ b = a.
Proof.
  intros H. split.
  - rewrite <- (repeat_length a n). apply nth_error_Some. now rewrite H.
  - apply nth_error_In in H. now apply repeat_spec in H.
Qed.

Lemma cell_black50 y x v : cell black50 y x = Some v -> (y < 50)%nat /\ (x < 50)%nat /\ v = 0.
Proof.
  unfold cell, black50. destruct (nth_error _ y) as [row|] eqn:E; [|discriminate].
  apply nth_error_repeat_inv in E as [Hy ->]. intros H.
  apply nth_error_repeat_inv in H as [Hx ->]. auto.
Qed.

Lemma pix_black50 a b : 0 <= a < 50 -> 0 <= b < 50 -> pix black50 a b = 0.
Proof.
  intros Ha Hb.
  rewrite <- (Z2Nat.id a) by lia. rewrite <- (Z2Nat.id b) by lia.
  apply pix_in_bounds. unfold cell, black50.
  rewrite nth_error_repeat by lia. apply nth_error_repeat. lia.
Qed.

Lemma black50_all_bin : all_bin black50.
Proof. intros y x v H. apply cell_black50 in H as (_ & _ & ->). red; auto. Qed.

Lemma miss_kernel_column_20 :
  In (5%nat, 20%nat) (kernel_coords miss_kernel) /\
  In (35%nat, 20%nat) (kernel_coords miss_kernel).
Proof. split; apply in_of_existsb; reflexivity. Qed.

(** Every output cell of a 50 x 50 image sees, through the miss element,
    an in-image sample of column [x]: row offset [35 - 20] above the middle
    or [5 - 20] below it. *)
Lemma erode_at_black50_miss (y x : nat) :
  (y < 50)%nat -> (x < 50)%nat ->
  erode_at black50 (kernel_coords miss_kernel) 20 20 (Z.of_nat y) (Z.of_nat x) = 0.
Proof.
  intros Hy Hx. rewrite erode_at_fold.
  set (f := kernel_term black50 20 20 (Z.of_nat y) (Z.of_nat x)).
  assert (Hlow : 0 <= fold_left (fun acc q => Z.min acc (f q)) (kernel_coords miss_kernel) 255).
  { apply fold_min_inv; [lia|lia|].
    intros [i j] _. unfold f, kernel_term.
    destruct (pix_bin black50 (Z.of_nat y + Z.of_nat i - 20) (Z.of_nat x + Z.of_nat j - 20)
                black50_all_bin) as [-> | ->]; lia. }
  destruct miss_kernel_column_20 as [H5 H35].
  destruct (Nat.ltb_spec y 25).
  - pose proof (fold_min_le f _ 255 _ H35) as Hle.
    assert (Hp : f (35%nat, 20%nat) = 0)
      by (unfold f, kernel_term; apply pix_black50; lia).
    rewrite Hp in Hle. lia.
  - pose proof (fold_min_le f _ 255 _ H5) as Hle.
    assert (Hp : f (5%nat, 20%nat) = 0)
      by (unfold f, kernel_term; apply pix_black50; lia).
    rewrite Hp in Hle. lia.
Qed.

Lemma erode_black50_miss : erode black50 miss_kernel = black50.
Proof.
  unfold erode. destruct miss_kernel_size as [-> ->].
  transitivity (map (fun row => map (fun _ => 0) row) black50).
  - apply map_indexed_ext. intros y row Hrow.
    apply map_indexed_ext. intros x a Ha.
    unfold black50 in Hrow. apply nth_error_repeat_inv in Hrow as [Hy ->].
    apply nth_error_repeat_inv in Ha as [Hx _].
    now apply erode_at_black50_miss.
  - unfold black50. now rewrite !map_repeat.
Qed.

Lemma bitwise_and_zero_row (r : list Z) : zip_with Z.land r (repeat 0 (length r)) = repeat 0 (length r).
Proof. induction r as [|v t IH]; simpl; auto. now rewrite Z.land_0_r, IH. Qed.

Lemma bitwise_and_zeros (h : grid) (w n : nat) :
  shape n w h -> bitwise_and h (repeat (repeat 0 w) n) = repeat (repeat 0 w) n.
Proof.
  unfold shape, dims, bitwise_and. revert n.
  induction h as [|row t IH]; intros [|n] Hs; simpl in *; try discriminate; auto.
  injection Hs as Hl Ht. rewrite IH by exact Ht. f_equal.
  rewrite <- Hl. apply bitwise_and_zero_row.
Qed.

Lemma bitwise_and_black50 (h : grid) : shape 50 50 h -> bitwise_and h black50 = black50.
Proof. apply bitwise_and_zeros. Qed.

(** C5: for the all-255 50 x 50 raster the binarized mask is all 255, its
    complement all 0, the miss erosion all 0, so AND-ing any 50 x 50 grid
    [h] with the miss erosion, and in particular the detection mask, is
    all 0. *)
Theorem C5_all_white (h : grid) (Hh : shape 50 50 h) :
  binary_image (hit_or_miss white50) = white50 /\
  complement_image (hit_or_miss white50) = black50 /\
  erosion_miss (hit_or_miss white50) = black50 /\
  bitwise_and h (erosion_miss (hit_or_miss white50)) = black50 /\
  hit_or_miss_result (hit_or_miss white50) = black50.
Proof.
  assert (Hb : binary_image (hit_or_miss white50) = white50)
    by (rewrite binary_image_eq; unfold threshold_binary, white50;
        now rewrite !map_repeat).
  assert (Hc : complement_image (hit_or_miss white50) = black50)
    by (rewrite complement_image_eq, <- binary_image_eq, Hb;
        unfold bitwise_not, white50, black50; now rewrite !map_repeat).
  assert (Hm : erosion_miss (hit_or_miss white50) = black50)
    by (rewrite erosion_miss_eq, <- complement_image_eq, Hc;
        apply erode_black50_miss).
  split; [exact Hb|]. split; [exact Hc|]. split; [exact Hm|].
  split; [rewrite Hm; now apply bitwise_and_black50|].
  rewrite hit_or_miss_result_eq, Hm. apply bitwise_and_black50.
  unfold shape. rewrite erosion_hit_eq, dims_erode. unfold threshold_binary.
  rewrite dims_map_map. reflexivity.
Qed.

Lemma C5_all_white_witness :
  shape 50 50 white50 /\
  (binary_image (hit_or_miss white50) = white50 /\
   complement_image (hit_or_miss white50) = black50 /\
   erosion_miss (hit_or_miss white50) = black50 /\
   bitwise_and white50 (erosion_miss (hit_or_miss white50)) = black50 /\
   hit_or_miss_result (hit_or_miss white50) = black50).
Proof.
  assert (H : shape 50 50 white50) by reflexivity.
  split; [exact H|]. exact (C5_all_white white50 H).
Defined.

(** ** Runs after a successful load *)

(** No encoder for the output file name: [cv2.imwrite] raises after the
    figure has been shown. *)
Lemma run_without_encoder (e : env) (fs : files) (image_path output_dir : string)
  (g : grid) :
  imread_gray e image_path = Decoded g ->
  find_encoder (encoder_exts e) (path_join output_dir ("result_" ++ basename image_path)) = false ->
  apply_hit_or_miss e fs image_path output_dir =
    {| trace := [Print ("Processing image: " ++ image_path);
                 ShowFigure ["Original"; "Structured element"; "Image after Erosion"]
                   [g; binary_image (hit_or_miss g); erosion_miss (hit_or_miss g)]
                   ("Hit-or-Miss Transform for: " ++ basename image_path)];
       disk := fs;
       outcome := Raised "could not find a writer for the specified extension" |}%string.
Proof.
  intros Hload Henc. unfold apply_hit_or_miss. rewrite Hload. unfold imwrite.
  now rewrite Henc.
Qed.

(** An encoder exists: [cv2.imwrite] reports in its result whether the file
    was written, and the run goes on to the success message. *)
Lemma run_with_encoder (e : env) (fs : files) (image_path output_dir : string)
  (g : grid) :
  imread_gray e image_path = Decoded g ->
  find_encoder (encoder_exts e) (path_join output_dir ("result_" ++ basename image_path)) = true ->
  apply_hit_or_miss e fs image_path output_dir =
    (let output_path := path_join output_dir ("result_" ++ basename image_path) in
     let ok := can_write e output_path in
     {| trace := [Print ("Processing image: " ++ image_path);
                  ShowFigure ["Original"; "Structured element"; "Image after Erosion"]
                    [g; binary_image (hit_or_miss g); erosion_miss (hit_or_miss g)]
                    ("Hit-or-Miss Transform for: " ++ basename image_path);
                  Imwrite output_path ok;
                  Print ("Result saved to: " ++ output_path ++ newline)];
        disk := if ok then (output_path, hit_or_miss_result (hit_or_miss g)) :: fs else fs;
        outcome := Returned |})%string.
Proof.
  intros Hload Henc. unfold apply_hit_or_miss. rewrite Hload. unfold imwrite.
  rewrite Henc. cbn [negb]. now destruct (can_write e _).
Qed.

(** ** C3: load failures *)

Lemma C3_counterexample :
  ~ (forall (e : env) (fs : files) (image_path output_dir : string),
       is_decoded (imread_gray e image_path) = false ->
       In (Print ("Error: Could not load image at " ++ image_path))
          (trace (apply_hit_or_miss e fs image_path output_dir)) /\
       outcome (apply_hit_or_miss e fs image_path output_dir) = Returned)%string.
Proof.
  intros H. destruct (H env_oversized_header [] "scan.jpg"%string "results"%string eq_refl)
    as [_ Hout].
  discriminate Hout.
Qed.

(** C3 (amended): when the image cannot be decoded, no figure is shown, no
    file is written and only text is printed.  If [cv2.imread] returns
    [None], the diagnostic naming the path is printed and the function
    returns; if it raises [cv2.error], the error propagates right after the
    first message, with no diagnostic. *)
Theorem C3_load_failure (e : env) (fs : files) (image_path output_dir : string)
  (Hfail : is_decoded (imread_gray e image_path) = false) :
  (forall ev, In ev (trace (apply_hit_or_miss e fs image_path output_dir)) ->
     exists s, ev = Print s) /\
  disk (apply_hit_or_miss e fs image_path output_dir) = fs /\
  (imread_gray e image_path = NotDecoded ->
     apply_hit_or_miss e fs image_path output_dir =
       {| trace := [Print ("Processing image: " ++ image_path);
                    Print ("Error: Could not load image at " ++ image_path)];
          disk := fs; outcome := Returned |}) /\
  (forall msg, imread_gray e image_path = ReadError msg ->
     apply_hit_or_miss e fs image_path output_dir =
       {| trace := [Print ("Processing image: " ++ image_path)];
          disk := fs; outcome := Raised msg |})%string.
Proof.
  unfold apply_hit_or_miss.
  destruct (imread_gray e image_path) as [g| |m] eqn:E; cbn [is_decoded] in Hfail;
    try discriminate; cbn [trace disk].
  - repeat split; try discriminate.
    intros ev [<-|[<-|[]]]; eexists; reflexivity.
  - repeat split; try discriminate.
    + intros ev [<-|[]]; eexists; reflexivity.
    + intros msg Hm. injection Hm as <-. reflexivity.
Qed.

Lemma C3_load_failure_witness :
  is_decoded (imread_gray env_missing_image "Tr-me_0019.jpg") = false /\
  ((forall ev, In ev (trace (apply_hit_or_miss env_missing_image [] "Tr-me_0019.jpg" "results")) ->
     exists s, ev = Print s) /\
   disk (apply_hit_or_miss env_missing_image [] "Tr-me_0019.jpg" "results") = [] /\
   (imread_gray env_missing_image "Tr-me_0019.jpg" = NotDecoded ->
     apply_hit_or_miss env_missing_image [] "Tr-me_0019.jpg" "results" =
       {| trace := [Print ("Processing image: " ++ "Tr-me_0019.jpg");
                    Print ("Error: Could not load image at " ++ "Tr-me_0019.jpg")];
          disk := []; outcome := Returned |}) /\
   (forall msg, imread_gray env_missing_image "Tr-me_0019.jpg" = ReadError msg ->
     apply_hit_or_miss env_missing_image [] "Tr-me_0019.jpg" "results" =
       {| trace := [Print ("Processing image: " ++ "Tr-me_0019.jpg")];
          disk := []; outcome := Raised msg |}))%string.
Proof.
  assert (H : is_decoded (imread_gray env_missing_image "Tr-me_0019.jpg") = false)
    by reflexivity.
  split; [exact H|]. exact (C3_load_failure _ [] _ "results" H).
Defined.

(** ** C10: write failures *)

Lemma C10_counterexample :
  ~ (forall (e : env) (fs : files) (image_path output_dir : string) (g : grid),
       imread_gray e image_path = Decoded g ->
       can_write e (path_join output_dir ("result_" ++ basename image_path)) = false ->
       outcome (apply_hit_or_miss e fs image_path output_dir) = Returned /\
       In (Print ("Result saved to: " ++ path_join output_dir ("result_" ++ basename image_path)
                  ++ newline))
          (trace (apply_hit_or_miss e fs image_path output_dir)))%string.
Proof.
  intros H.
  destruct (H env_no_output_dir [] "scan"%string "nodir"%string [[0]] eq_refl eq_refl)
    as [Hout _].
  rewrite (run_without_encoder env_no_output_dir [] "scan" "nodir" [[0]] eq_refl eq_refl)
    in Hout.
  discriminate Hout.
Qed.

(** C10 (amended): when the image loads but the output file cannot be
    opened, the outcome depends on the output file name.  If an encoder
    matches its extension, [cv2.imwrite] returns [False], the result is
    discarded, no file is created, and the success message naming the output
    path is printed: the call returns normally.  If none matches,
    [cv2.imwrite] raises [cv2.error] after the figure: no file, no success
    message. *)
Theorem C10_write_failure_ignored (e : env) (fs : files) (image_path output_dir : string)
  (g : grid) (Hload : imread_gray e image_path = Decoded g)
  (Hw : can_write e (path_join output_dir ("result_" ++ basename image_path)) = false) :
  ((find_encoder (encoder_exts e) (path_join output_dir ("result_" ++ basename image_path)) = true ->
   apply_hit_or_miss e fs image_path output_dir =
    {| trace := [Print ("Processing image: " ++ image_path);
                 ShowFigure ["Original"; "Structured element"; "Image after Erosion"]
                   [g; binary_image (hit_or_miss g); erosion_miss (hit_or_miss g)]
                   ("Hit-or-Miss Transform for: " ++ basename image_path);
                 Imwrite (path_join output_dir ("result_" ++ basename image_path)) false;
                 Print ("Result saved to: " ++ path_join output_dir ("result_" ++ basename image_path)
                        ++ newline)];
       disk := fs; outcome := Returned |}) /\
  (find_encoder (encoder_exts e) (path_join output_dir ("result_" ++ basename image_path)) = false ->
   apply_hit_or_miss e fs image_path output_dir =
    {| trace := [Print ("Processing image: " ++ image_path);
                 ShowFigure ["Original"; "Structured element"; "Image after Erosion"]
                   [g; binary_image (hit_or_miss g); erosion_miss (hit_or_miss g)]
                   ("Hit-or-Miss Transform for: " ++ basename image_path)];
       disk := fs;
       outcome := Raised "could not find a writer for the specified extension" |}))%string.
Proof.
  split; intros Henc.
  - rewrite (run_with_encoder e fs image_path output_dir g Hload Henc). cbv zeta.
    now rewrite Hw.
  - exact (run_without_encoder e fs image_path output_dir g Hload Henc).
Qed.

Lemma C10_write_failure_ignored_witness :
  imread_gray env_no_output_dir "Tr-me_0019.jpg" = Decoded [[0]] /\
  can_write env_no_output_dir (path_join "results" ("result_" ++ basename "Tr-me_0019.jpg")) = false /\
  ((find_encoder (encoder_exts env_no_output_dir)
      (path_join "results" ("result_" ++ basename "Tr-me_0019.jpg")) = true ->
    apply_hit_or_miss env_no_output_dir [] "Tr-me_0019.jpg" "results" =
     {| trace := [Print ("Processing image: " ++ "Tr-me_0019.jpg");
                  ShowFigure ["Original"; "Structured element"; "Image after Erosion"]
                    [[[0]]; binary_image (hit_or_miss [[0]]); erosion_miss (hit_or_miss [[0]])]
                    ("Hit-or-Miss Transform for: " ++ basename "Tr-me_0019.jpg");
                  Imwrite (path_join "results" ("result_" ++ basename "Tr-me_0019.jpg")) false;
                  Print ("Result saved to: " ++ path_join "results" ("result_" ++ basename "Tr-me_0019.jpg")
                         ++ newline)];
        disk := []; outcome := Returned |}) /\
   (find_encoder (encoder_exts env_no_output_dir)
      (path_join "results" ("result_" ++ basename "Tr-me_0019.jpg")) = false ->
    apply_hit_or_miss env_no_output_dir [] "Tr-me_0019.jpg" "results" =
     {| trace := [Print ("Processing image: " ++ "Tr-me_0019.jpg");
                  ShowFigure ["Original"; "Structured element"; "Image after Erosion"]
                    [[[0]]; binary_image (hit_or_miss [[0]]); erosion_miss (hit_or_miss [[0]])]
                    ("Hit-or-Miss Transform for: " ++ basename "Tr-me_0019.jpg")];
        disk := [];
        outcome := Raised "could not find a writer for the specified extension" |}))%string.
Proof.
  assert (H1 : imread_gray env_no_output_dir "Tr-me_0019.jpg" = Decoded [[0]]) by reflexivity.
  assert (H2 : can_write env_no_output_dir
                 (path_join "results" ("result_" ++ basename "Tr-me_0019.jpg")) = false)
    by reflexivity.
  split; [exact H1|]. split; [exact H2|].
  exact (C10_write_failure_ignored _ [] _ _ _ H1 H2).
Defined.

(** ** C8: objects of the store *)

(** Running the body: the store holds the stages of [hit_or_miss], and the
    events record each creation and the one in-place update of line 32. *)
Lemma run_body_eq (r : grid) :
  run_body r =
  Some ({| heap := [r; binary_image (hit_or_miss r); hit_kernel; miss_kernel;
                    erosion_hit (hit_or_miss r); complement_image (hit_or_miss r);
                    erosion_miss (hit_or_miss r); hit_or_miss_result (hit_or_miss r)];
           vars := [("hit_or_miss_result", 7%nat); ("erosion_miss", 6%nat);
                    ("complement_image", 5%nat); ("erosion_hit", 4%nat);
                    ("miss_kernel", 3%nat); ("hit_kernel", 2%nat);
                    ("binary_image", 1%nat); ("image_gray", 0%nat)] |},
        [Created "image_gray" 0 r;
         Created "binary_image" 1 (binary_image (hit_or_miss r));
         Created "hit_kernel" 2 hit_kernel;
         Created "miss_kernel" 3 (getStructuringElement_ellipse 40 40);
         Mutated "miss_kernel" 3;
         Created "erosion_hit" 4 (erosion_hit (hit_or_miss r));
         Created "complement_image" 5 (complement_image (hit_or_miss r));
         Created "erosion_miss" 6 (erosion_miss (hit_or_miss r));
         Created "hit_or_miss_result" 7 (hit_or_miss_result (hit_or_miss r))])%string.
Proof. reflexivity. Qed.

Lemma miss_kernel_differs : miss_kernel <> getStructuringElement_ellipse 40 40.
Proof.
  intros H. apply (f_equal (fun g => cell g 20 20)) in H.
  vm_compute in H. discriminate.
Qed.

(** C8 says no grid is changed after its creation.  The miss element is:
    the object created by [getStructuringElement] holds the full ellipse,
    and the slice assignment of line 32 changes it in place. *)
Lemma C8_counterexample : ~ no_mutation (run_body [[0]]).
Proof.
  unfold no_mutation. rewrite run_body_eq. intros H.
  specialize (H "miss_kernel"%string 3%nat (getStructuringElement_ellipse 40 40)).
  assert (Hin : In (Created "miss_kernel" 3 (getStructuringElement_ellipse 40 40))
                   [Created "image_gray" 0 [[0]];
                    Created "binary_image" 1 (binary_image (hit_or_miss [[0]]));
                    Created "hit_kernel" 2 hit_kernel;
                    Created "miss_kernel" 3 (getStructuringElement_ellipse 40 40);
                    Mutated "miss_kernel" 3;
                    Created "erosion_hit" 4 (erosion_hit (hit_or_miss [[0]]));
                    Created "complement_image" 5 (complement_image (hit_or_miss [[0]]));
                    Created "erosion_miss" 6 (erosion_miss (hit_or_miss [[0]]));
                    Created "hit_or_miss_result" 7 (hit_or_miss_result (hit_or_miss [[0]]))])
    by (do 3 right; left; reflexivity).
  specialize (H Hin). cbn [heap nth_error] in H.
  apply (f_equal (fun o : option grid => match o with Some k => k | None => [] end)) in H.
  exact (miss_kernel_differs H).
Qed.

(** C8 (amended): every object of the run (raster, binarized mask, hit
    element, both erosion results, complement, detection mask) keeps the
    value it was created with; the one object changed in place is the miss
    element, changed exactly once, right after its creation and before any
    use, from the 40 x 40 ellipse to the ellipse with rows 10..29 x columns
    10..29 set to 0. *)
Theorem C8_only_miss_kernel_mutated (r : grid) :
  exists s evs pre post,
    run_body r = Some (s, evs) /\
    filter is_mutation evs = [Mutated "miss_kernel" 3] /\
    evs = pre ++ Created "miss_kernel" 3 (getStructuringElement_ellipse 40 40)
               :: Mutated "miss_kernel" 3 :: post /\
    (forall x id g, In (Created x id g) evs -> x <> "miss_kernel"%string ->
       nth_error (heap s) id = Some g) /\
    nth_error (heap s) 3 = Some (carve_out (getStructuringElement_ellipse 40 40)).
Proof.
  do 4 eexists. split; [apply run_body_eq|].
  split; [reflexivity|]. split.
  { match goal with |- ?l = _ =>
      change l with ([Created "image_gray" 0 r;
                      Created "binary_image" 1 (binary_image (hit_or_miss r));
                      Created "hit_kernel" 2 hit_kernel] ++ skipn 3 l) end.
    reflexivity. }
  split; [|reflexivity].
  intros x id g Hin Hx. cbn [In] in Hin.
  repeat match goal with H : _ \/ _ |- _ => destruct H as [H|H] end;
    try contradiction; try discriminate;
    injection Hin as E1 E2 E3; subst; try reflexivity.
  exfalso; apply Hx; reflexivity.
Qed.

(** * Further properties of [apply_hit_or_miss] *)

(** ** What the detection mask computes, cell by cell *)

Lemma pix_cellZ (src : grid) a b :
  pix src a b = match cellZ src a b with Some v => v | None => 255 end.
Proof.
  unfold pix, cellZ, cell.
  destruct ((a <? 0) || (b <? 0)); auto.
  destruct (nth_error src (Z.to_nat a)); auto.
Qed.

Lemma cellZ_map_map (f : Z -> Z) (g : grid) a b :
  cellZ (map (map f) g) a b = option_map f (cellZ g a b).
Proof.
  unfold cellZ. destruct ((a <? 0) || (b <? 0)); auto. apply cell_map_map.
Qed.

Lemma fold_min_eq_255 {A} (f : A -> Z) (l : list A) :
  (forall p, In p l -> bin (f p)) ->
  (fold_left (fun acc q => Z.min acc (f q)) l 255 = 255 <->
   forall p, In p l -> f p = 255).
Proof.
  intros Hb. split.
  - intros H p Hp. pose proof (fold_min_le f l 255 p Hp).
    destruct (Hb p Hp) as [E|E]; lia.
  - intros H. apply (fold_min_inv f (fun v => v = 255)); auto.
    intros u v -> ->; reflexivity.
Qed.

Lemma erode_at_eq_255 (src : grid) coords ay ax y x :
  all_bin src ->
  (erode_at src coords ay ax y x = 255 <->
   forall i j, In (i, j) coords ->
     pix src (y + Z.of_nat i - ay) (x + Z.of_nat j - ax) = 255).
Proof.
  intros Hs. rewrite erode_at_fold, fold_min_eq_255.
  - split; intros H.
    + intros i j Hij. exact (H (i, j) Hij).
    + intros [i j] Hij. exact (H i j Hij).
  - intros [i j] _. apply pix_bin, Hs.
Qed.

Lemma at_erode_in (src k : grid) y x v :
  cell src y x = Some v ->
  at_ (erode src k) y x =
  erode_at src (kernel_coords k) (Z.of_nat (length k) / 2)
           (Z.of_nat (length (hd [] k)) / 2) (Z.of_nat y) (Z.of_nat x).
Proof. intros H. unfold at_. rewrite cell_erode, H. reflexivity. Qed.

Lemma land_bin_255 u v : bin u -> bin v -> (Z.land u v = 255 <-> u = 255 /\ v = 255).
Proof. intros [-> | ->] [-> | ->]; simpl; split; intros H; try lia; try discriminate; auto. Qed.

(** X1: every sample of the detection mask, the image that is saved, is 0
    or 255. *)
Theorem detection_mask_binary (image_gray : grid) :
  all_bin (hit_or_miss_result (hit_or_miss image_gray)).
Proof.
  intros y x v. rewrite hit_or_miss_result_eq, cell_bitwise_and.
  destruct (cell (erosion_hit (hit_or_miss image_gray)) y x) as [a|] eqn:Ea;
    [|discriminate].
  destruct (cell (erosion_miss (hit_or_miss image_gray)) y x) as [b|] eqn:Eb;
    [|discriminate].
  intros H; injection H as <-.
  destruct (erosion_hit_all_bin image_gray y x a Ea) as [-> | ->];
  destruct (erosion_miss_all_bin image_gray y x b Eb) as [-> | ->];
  red; simpl; auto.
Qed.

Lemma pix_threshold_255 (g : grid) a b :
  pix (threshold_binary 150 255 g) a b = 255 <->
  (forall w, cellZ g a b = Some w -> 150 < w).
Proof.
  unfold threshold_binary. rewrite pix_cellZ, cellZ_map_map.
  destruct (cellZ g a b) as [w|]; simpl.
  - destruct (150 <? w) eqn:E; split; intros H.
    + intros w' Hw; injection Hw as <-; now apply Z.ltb_lt.
    + reflexivity.
    + discriminate.
    + specialize (H w eq_refl). apply Z.ltb_lt in H. congruence.
  - split; [discriminate|reflexivity].
Qed.

Lemma pix_complement_255 (g : grid) a b :
  pix (bitwise_not (threshold_binary 150 255 g)) a b = 255 <->
  (forall w, cellZ g a b = Some w -> w <= 150).
Proof.
  unfold bitwise_not, threshold_binary. rewrite pix_cellZ, !cellZ_map_map.
  destruct (cellZ g a b) as [w|]; simpl.
  - destruct (150 <? w) eqn:E; split; intros H.
    + discriminate.
    + specialize (H w eq_refl). apply Z.ltb_lt in E. lia.
    + intros w' Hw; injection Hw as <-; now apply Z.ltb_ge.
    + reflexivity.
  - split; [discriminate|reflexivity].
Qed.

(** X2: a cell of the raster is detected (255) exactly when every raster
    sample under the hit element placed at it is above 150 and every sample
    under the miss ring is at most 150; element cells falling outside the
    image are ignored. *)
Theorem detection_mask_cell (image_gray : grid) (y x : nat) (v : Z)
  (Hv : cell image_gray y x = Some v) :
  at_ (hit_or_miss_result (hit_or_miss image_gray)) y x = 255 <->
  (forall i j w, In (i, j) (kernel_coords hit_kernel) ->
     cellZ image_gray (Z.of_nat y + Z.of_nat i - 10) (Z.of_nat x + Z.of_nat j - 10) = Some w ->
     150 < w) /\
  (forall i j w, In (i, j) (kernel_coords miss_kernel) ->
     cellZ image_gray (Z.of_nat y + Z.of_nat i - 20) (Z.of_nat x + Z.of_nat j - 20) = Some w ->
     w <= 150).
Proof.
  set (B := threshold_binary 150 255 image_gray).
  assert (HB : cell B y x = Some (if 150 <? v then 255 else 0))
    by (unfold B, threshold_binary; now rewrite cell_map_map, Hv).
  assert (HC : cell (bitwise_not B) y x <> None)
    by (unfold bitwise_not; rewrite cell_map_map, HB; discriminate).
  destruct (cell (bitwise_not B) y x) as [c|] eqn:HC'; [|contradiction].
  rewrite hit_or_miss_result_eq, at_bitwise_and, erosion_hit_eq, erosion_miss_eq.
  fold B. rewrite (at_erode_in B hit_kernel y x _ HB).
  rewrite (at_erode_in (bitwise_not B) miss_kernel y x _ HC').
  destruct hit_kernel_size as [-> ->]. destruct miss_kernel_size as [-> ->].
  assert (HbB : all_bin B) by apply threshold_all_bin.
  assert (HbC : all_bin (bitwise_not B)) by now apply not_all_bin.
  rewrite land_bin_255.
  2: { rewrite erode_at_fold. apply fold_min_inv; [exact bin_min|red; auto|].
       intros [i j] _. apply pix_bin, HbB. }
  2: { rewrite erode_at_fold. apply fold_min_inv; [exact bin_min|red; auto|].
       intros [i j] _. apply pix_bin, HbC. }
  rewrite (erode_at_eq_255 B), (erode_at_eq_255 (bitwise_not B)) by assumption.
  unfold B. split; intros [H1 H2]; split.
  - intros i j w Hij. exact (proj1 (pix_threshold_255 _ _ _) (H1 i j Hij) w).
  - intros i j w Hij. exact (proj1 (pix_complement_255 _ _ _) (H2 i j Hij) w).
  - intros i j Hij. apply pix_threshold_255. intros w. apply (H1 i j w Hij).
  - intros i j Hij. apply pix_complement_255. intros w. apply (H2 i j w Hij).
Qed.

Lemma detection_mask_cell_witness :
  cell [[255]] 0 0 = Some 255 /\
  (at_ (hit_or_miss_result (hit_or_miss [[255]])) 0 0 = 255 <->
   (forall i j w, In (i, j) (kernel_coords hit_kernel) ->
      cellZ [[255]] (Z.of_nat 0 + Z.of_nat i - 10) (Z.of_nat 0 + Z.of_nat j - 10) = Some w ->
      150 < w) /\
   (forall i j w, In (i, j) (kernel_coords miss_kernel) ->
      cellZ [[255]] (Z.of_nat 0 + Z.of_nat i - 20) (Z.of_nat 0 + Z.of_nat j - 20) = Some w ->
      w <= 150)).
Proof.
  assert (H : cell [[255]] 0 0 = Some 255) by reflexivity.
  split; [exact H|]. exact (detection_mask_cell [[255]] 0 0 255 H).
Defined.

(** ** The two structuring elements *)

Lemma hit_coords_box i j :
  In (i, j) (kernel_coords hit_kernel) -> (i < 20 /\ j < 20)%nat.
Proof.
  intros H.
  assert (Hall : forallb (fun p => (fst p <? 20)%nat && (snd p <? 20)%nat)
                         (kernel_coords hit_kernel) = true) by reflexivity.
  rewrite forallb_forall in Hall. specialize (Hall _ H). simpl in Hall.
  apply andb_true_iff in Hall as [H1 H2]. apply Nat.ltb_lt in H1, H2. auto.
Qed.

Lemma miss_coords_ring i j :
  In (i, j) (kernel_coords miss_kernel) -> ~ ((10 <= i < 30)%nat /\ (10 <= j < 30)%nat).
Proof.
  intros H.
  assert (Hall : forallb (fun p => negb ((10 <=? fst p)%nat && (fst p <? 30)%nat &&
                                         (10 <=? snd p)%nat && (snd p <? 30)%nat))
                         (kernel_coords miss_kernel) = true) by reflexivity.
  rewrite forallb_forall in Hall. specialize (Hall _ H). cbn [fst snd] in Hall.
  intros [[Hi1 Hi2] [Hj1 Hj2]].
  apply Nat.leb_le in Hi1, Hj1. apply Nat.ltb_lt in Hi2, Hj2.
  rewrite Hi1, Hi2, Hj1, Hj2 in Hall. discriminate.
Qed.

(** X3: placed at the same cell (each at its own anchor, (10,10) and
    (20,20)), the hit element and the carved miss element never cover the
    same relative position, so no raster sample is required to be both
    above 150 and at most 150. *)
Theorem hit_and_miss_windows_disjoint (i j i' j' : nat)
  (Hh : In (i, j) (kernel_coords hit_kernel))
  (Hm : In (i', j') (kernel_coords miss_kernel)) :
  Z.of_nat i - 10 <> Z.of_nat i' - 20 \/ Z.of_nat j - 10 <> Z.of_nat j' - 20.
Proof.
  apply hit_coords_box in Hh. apply miss_coords_ring in Hm.
  destruct (Z.eq_dec (Z.of_nat i - 10) (Z.of_nat i' - 20)); [|now left].
  right. intros E. apply Hm. lia.
Qed.

Lemma hit_and_miss_windows_disjoint_witness :
  In (10%nat, 10%nat) (kernel_coords hit_kernel) /\
  In (5%nat, 20%nat) (kernel_coords miss_kernel) /\
  (Z.of_nat 10 - 10 <> Z.of_nat 5 - 20 \/ Z.of_nat 10 - 10 <> Z.of_nat 20 - 20).
Proof.
  split; [exact hit_kernel_anchor|]. split; [exact (proj1 miss_kernel_column_20)|].
  exact (hit_and_miss_windows_disjoint 10 10 5 20 hit_kernel_anchor
           (proj1 miss_kernel_column_20)).
Defined.

(** ** The output path *)

Lemma ends_with_slash_cons c s :
  ends_with_slash s = true -> ends_with_slash (String c s) = true.
Proof. destruct s; simpl; [discriminate|auto]. Qed.

Lemma basename_split (p : string) :
  exists pre, p = (pre ++ basename p)%string /\ has_slash (basename p) = false /\
              (pre = EmptyString \/ ends_with_slash pre = true).
Proof.
  induction p as [|c rest IH].
  - exists EmptyString. simpl. auto.
  - simpl. destruct (has_slash rest) eqn:Hs.
    + destruct IH as [pre [Hp [Hb Hpre]]].
      exists (String c pre). simpl. rewrite <- Hp. split; [reflexivity|]. split; [exact Hb|].
      right. destruct Hpre as [->|Hpre]; [|now apply ends_with_slash_cons].
      simpl in Hp. rewrite <- Hp in Hb. congruence.
    + destruct (Ascii.eqb c slash) eqn:Ec.
      * exists (String c EmptyString). simpl. split; [reflexivity|]. split; [exact Hs|].
        right. exact Ec.
      * exists EmptyString. simpl. rewrite Ec, Hs. auto.
Qed.

(** X4: the result is saved under [output_dir], followed by a ['/'] unless
    [output_dir] is empty or already ends in ['/'], followed by ["result_"]
    and the last component of [image_path]: the part after its last ['/'],
    which contains no ['/'].  So the file lands directly in [output_dir]. *)
Theorem output_path_shape (output_dir image_path : string) :
  exists sep pre,
    path_join output_dir ("result_" ++ basename image_path) =
      (output_dir ++ sep ++ "result_" ++ basename image_path)%string /\
    (sep = EmptyString /\ ((output_dir =? EmptyString)%string || ends_with_slash output_dir) = true \/
     sep = String slash EmptyString /\
       ((output_dir =? EmptyString)%string || ends_with_slash output_dir) = false) /\
    image_path = (pre ++ basename image_path)%string /\
    has_slash (basename image_path) = false /\
    (pre = EmptyString \/ ends_with_slash pre = true).
Proof.
  destruct (basename_split image_path) as [pre Hpre].
  unfold path_join. simpl starts_with_slash. cbv iota.
  destruct ((output_dir =? EmptyString)%string || ends_with_slash output_dir) eqn:E.
  - exists EmptyString, pre. simpl. auto.
  - exists (String slash EmptyString), pre. simpl. auto.
Qed.

(** ** Saving the result *)



(** ** The raster matters only through the threshold *)

Lemma map_ext_cells (f : Z -> Z) (ra rb : list Z) :
  length ra = length rb ->
  (forall x v1 v2, nth_error ra x = Some v1 -> nth_error rb x = Some v2 -> f v1 = f v2) ->
  map f ra = map f rb.
Proof.
  revert rb; induction ra as [|a ta IH]; intros [|b tb] Hl H; simpl in *;
    try discriminate; auto.
  f_equal; [apply (H 0%nat); reflexivity|].
  apply IH; [lia|]. intros x v1 v2. apply (H (S x)).
Qed.

(** X6: two rasters of the same size whose samples agree, cell by cell, on
    being above 150 give the same binarized mask, complement, erosions and
    detection mask. *)
Theorem stages_depend_on_threshold_only (r1 r2 : grid)
  (Hd : dims r1 = dims r2)
  (Hc : forall y x v1 v2, cell r1 y x = Some v1 -> cell r2 y x = Some v2 ->
          (150 <? v1) = (150 <? v2)) :
  hit_or_miss r1 = hit_or_miss r2.
Proof.
  assert (Ht : threshold_binary 150 255 r1 = threshold_binary 150 255 r2).
  { unfold threshold_binary. revert r2 Hd Hc.
    induction r1 as [|ra ta IH]; intros [|rb tb] Hd Hc; unfold dims in Hd; simpl in *;
      try discriminate; auto.
    injection Hd as Hl Ht. f_equal.
    - apply map_ext_cells; [exact Hl|]. intros x v1 v2 H1 H2.
      rewrite (Hc 0%nat x v1 v2); auto.
    - apply IH; [exact Ht|]. intros y. apply (Hc (S y)). }
  unfold hit_or_miss. now rewrite Ht.
Qed.

Lemma stages_depend_on_threshold_only_witness :
  dims [[151]] = dims [[255]] /\
  (forall y x v1 v2, cell [[151]] y x = Some v1 -> cell [[255]] y x = Some v2 ->
     (150 <? v1) = (150 <? v2)) /\
  hit_or_miss [[151]] = hit_or_miss [[255]].
Proof.
  assert (H1 : dims [[151]] = dims [[255]]) by reflexivity.
  assert (H2 : forall y x v1 v2, cell [[151]] y x = Some v1 -> cell [[255]] y x = Some v2 ->
                 (150 <? v1) = (150 <? v2)).
  { intros [|[|y]] [|[|x]] v1 v2; unfold cell; simpl; try discriminate;
      try (destruct x; discriminate); try (destruct y; discriminate).
    intros E1 E2; injection E1 as <-; injection E2 as <-; reflexivity. }
  split; [exact H1|]. split; [exact H2|].
  exact (stages_depend_on_threshold_only _ _ H1 H2).
Defined.
